(** * Public Policy Feedback API: a shallow embedding of [src/api.py]

    The module serves three read-only queries over a survey table that is
    loaded once: the overall support rate, the support rate of a filtered
    subset, and the support rate per group of one categorical column.

    Modelling decisions, all taken from the source:
    - the pandas [DataFrame] is the ordered list of its rows;
    - the five categorical columns have dtype object, so a cell is either a
      string or missing ([None] stands for pandas' NaN cell);
    - [policy_support] is an integer column (dtype int64 cannot hold a missing
      value), its cells are integers;
    - a Python [float] is the exact rational it denotes, or [NaN]; the
      rounding of [round(x, 3)] is rounding to the nearest multiple of
      [1/1000], a tie going to the even multiple (Python's documented rule);
    - [str.casefold] is the folding of the ASCII letters [A]-[Z], on which it
      agrees with lowercasing;
    - a raised exception is the [Raise] outcome of the request. *)

From Stdlib Require Import String Ascii Bool ZArith NArith QArith Qround.
From Stdlib Require Import List Lia Lqa Sorted Permutation.
Import ListNotations.

Local Open Scope string_scope.
Local Open Scope list_scope.
Local Open Scope Z_scope.

(** ** Data model *)

(** One row of [data/policy_survey_data.csv]. *)
Record Record : Type := mkRecord {
  gender : option string;
  race : option string;
  age_group : option string;
  education : option string;
  income : option string;
  policy_support : Z
}.

Definition DataFrame : Type := list Record.

(** The categorical columns, and [df[name]] on them. *)
Inductive Column : Type := Gender | Race | Age_group | Education | Income.

Definition column_name (c : Column) : string :=
  match c with
  | Gender => "gender"
  | Race => "race"
  | Age_group => "age_group"
  | Education => "education"
  | Income => "income"
  end.

Definition cell (c : Column) (r : Record) : option string :=
  match c with
  | Gender => gender r
  | Race => race r
  | Age_group => age_group r
  | Education => education r
  | Income => income r
  end.

(** [df.empty]: the table has six columns, so it is empty when it has no
    row. *)
Definition empty {A : Type} (df : list A) : bool :=
  match df with
  | [] => true
  | _ :: _ => false
  end.

(** ** Python values *)

Inductive pyfloat : Type :=
| Finite (q : Q)
| NaN.

Inductive value : Type :=
| VInt (z : Z)
| VFloat (x : pyfloat)
| VStr (s : string).

(** A [Dict[str, Any]], in insertion order. *)
Definition dict : Type := list (string * value).

Fixpoint dict_get (k : string) (d : dict) : option value :=
  match d with
  | [] => None
  | (k', v) :: d' => if String.eqb k k' then Some v else dict_get k d'
  end.

Inductive exn : Type :=
| HTTPException (status_code : Z) (detail : string)
| KeyError (key : string).

Inductive outcome (A : Type) : Type :=
| Return (a : A)
| Raise (e : exn).

Arguments Return {A} a.
Arguments Raise {A} e.

(** Truth value of an [Optional[str]] in [if gender:]: [None] and the empty
    string are false. *)
Definition truthy (o : option string) : bool :=
  match o with
  | None => false
  | Some s => negb (String.eqb s "")
  end.

(** ** [str.casefold] *)

Definition casefold_ascii (c : ascii) : ascii :=
  let n := N_of_ascii c in
  if ((65 <=? n) && (n <=? 90))%N then ascii_of_N (n + 32) else c.

Fixpoint casefold (s : string) : string :=
  match s with
  | EmptyString => EmptyString
  | String c s' => String (casefold_ascii c) (casefold s')
  end.

(** One cell of the mask [sub_df[col].str.casefold() == v.casefold()]: the
    [.str] accessor leaves a missing cell missing, and a missing cell
    compares unequal to every string. *)
Definition casefold_eq (v : string) (x : option string) : bool :=
  match x with
  | Some a => String.eqb (casefold a) (casefold v)
  | None => false
  end.

(** ** Rates *)

Definition Zsum (l : list Z) : Z := fold_left Z.add l 0.

(** [Series.mean()] of an integer column: the sum over the number of cells,
    [NaN] on an empty column. *)
Definition Series_mean (s : list Z) : pyfloat :=
  match s with
  | [] => NaN
  | _ :: _ => Finite (inject_Z (Zsum s) / inject_Z (Z.of_nat (length s)))
  end.

(** api.py:43-50 *)
Definition calculate_support_rate (sub_df : DataFrame) : pyfloat :=
  if empty sub_df then Finite 0
  else Series_mean (map policy_support sub_df).

(** Nearest integer, ties to even. *)
Definition round_half_even (q : Q) : Z :=
  let f := Qfloor q in
  match ((q - inject_Z f) ?= (1 # 2))%Q with
  | Lt => f
  | Gt => f + 1
  | Eq => if Z.even f then f else f + 1
  end.

(** [round(x, ndigits)] for [ndigits >= 0]; [NaN] stays [NaN]. *)
Definition round (x : pyfloat) (ndigits : Z) : pyfloat :=
  match x with
  | NaN => NaN
  | Finite q =>
      let scale := inject_Z (10 ^ ndigits) in
      Finite (Qred (inject_Z (round_half_even (q * scale)) / scale))
  end.

(** ** Filter engine and the two aggregate endpoints *)

(** The five optional query parameters of [GET /support_by]. *)
Record FilterSpec : Type := mkFilterSpec {
  fs_gender : option string;
  fs_race : option string;
  fs_age_group : option string;
  fs_education : option string;
  fs_income : option string
}.

Definition no_filter : FilterSpec := mkFilterSpec None None None None None.

(** One step [if v: sub_df = sub_df[sub_df[col].str.casefold() == v.casefold()]]. *)
Definition filter_step (c : Column) (v : option string) (sub_df : DataFrame)
  : DataFrame :=
  if truthy v
  then match v with
       | Some s => filter (fun r => casefold_eq s (cell c r)) sub_df
       | None => sub_df
       end
  else sub_df.

(** api.py:73-84, the filters applied one by one to a copy of the table. *)
Definition apply_filters (df : DataFrame) (fs : FilterSpec) : DataFrame :=
  let sub_df := df in
  let sub_df := filter_step Gender (fs_gender fs) sub_df in
  let sub_df := filter_step Race (fs_race fs) sub_df in
  let sub_df := filter_step Age_group (fs_age_group fs) sub_df in
  let sub_df := filter_step Education (fs_education fs) sub_df in
  let sub_df := filter_step Income (fs_income fs) sub_df in
  sub_df.

(** api.py:53-57 *)
Definition overall_support (df : DataFrame) : dict :=
  let rate := calculate_support_rate df in
  [("count", VInt (Z.of_nat (length df))); ("support_rate", VFloat (round rate 3))].

(** api.py:60-89 *)
Definition support_by (df : DataFrame) (fs : FilterSpec) : outcome dict :=
  let sub_df := apply_filters df fs in
  if empty sub_df
  then Raise (HTTPException 404 "No respondents match the given filters.")
  else
    let rate := calculate_support_rate sub_df in
    Return [("count", VInt (Z.of_nat (length sub_df)));
            ("support_rate", VFloat (round rate 3))].

(** ** Grouped endpoint *)

(** The set literal of api.py:100. *)
Definition valid_columns : list string :=
  ["gender"; "race"; "age_group"; "education"; "income"].

(** [name in valid_columns] *)
Definition mem (name : string) (names : list string) : bool :=
  existsb (String.eqb name) names.

(** [df[name]] on a categorical column of the table; another name has no such
    column. *)
Definition column_of_name (name : string) : option Column :=
  if String.eqb name "gender" then Some Gender
  else if String.eqb name "race" then Some Race
  else if String.eqb name "age_group" then Some Age_group
  else if String.eqb name "education" then Some Education
  else if String.eqb name "income" then Some Income
  else None.

(** [sorted(names)] and the [repr] of a list of plain names. *)
Fixpoint insert_sorted (s : string) (l : list string) : list string :=
  match l with
  | [] => [s]
  | x :: l' => if String.leb s x then s :: l else x :: insert_sorted s l'
  end.

Definition sorted (l : list string) : list string :=
  fold_right insert_sorted [] l.

Definition repr_str (s : string) : string := "'" ++ s ++ "'".

Fixpoint join (sep : string) (l : list string) : string :=
  match l with
  | [] => ""
  | [x] => x
  | x :: l' => x ++ sep ++ join sep l'
  end.

Definition repr_list (l : list string) : string :=
  "[" ++ join ", " (map repr_str l) ++ "]".

(** [df.groupby(col)["policy_support"]]: one group per distinct value of the
    column, groups in ascending order of that value, rows whose cell is
    missing left out, every group holding its cells in row order. *)
Fixpoint insert_group (k : string) (v : Z) (gs : list (string * list Z))
  : list (string * list Z) :=
  match gs with
  | [] => [(k, [v])]
  | (k', vs) :: gs' =>
      match String.compare k k' with
      | Lt => (k, [v]) :: gs
      | Eq => (k', vs ++ [v]) :: gs'
      | Gt => (k', vs) :: insert_group k v gs'
      end
  end.

Definition group_row (c : Column) (gs : list (string * list Z)) (r : Record)
  : list (string * list Z) :=
  match cell c r with
  | Some k => insert_group k (policy_support r) gs
  | None => gs
  end.

Definition groupby (c : Column) (df : DataFrame) : list (string * list Z) :=
  fold_left (group_row c) df [].

(** [.agg(["count", "mean"]).reset_index()]: a row per group with the key,
    the number of cells and their mean. *)
Definition agg_count_mean (gs : list (string * list Z))
  : list (string * Z * pyfloat) :=
  map (fun g => (fst g, Z.of_nat (length (snd g)), Series_mean (snd g))) gs.

(** [grouped_df["support_rate"].round(3)] *)
Definition round_support_rate (rows : list (string * Z * pyfloat))
  : list (string * Z * pyfloat) :=
  map (fun row => (fst (fst row), snd (fst row), round (snd row) 3)) rows.

(** [.to_dict(orient="records")]: one dict per row, in column order; the key
    column carries the name given to [groupby]. *)
Definition entry (key : string) (row : string * Z * pyfloat) : dict :=
  [(key, VStr (fst (fst row)));
   ("count", VInt (snd (fst row)));
   ("support_rate", VFloat (snd row))].

Definition to_dict_records (key : string) (rows : list (string * Z * pyfloat))
  : list dict :=
  map (entry key) rows.

(** api.py:92-115 *)
Definition support_grouped (df : DataFrame) (group_by : string)
  : outcome (list dict) :=
  if negb (mem group_by valid_columns)
  then Raise (HTTPException 400
                ("Invalid group_by '" ++ group_by ++ "'. Must be one of "
                 ++ repr_list (sorted valid_columns) ++ "."))
  else
    match column_of_name group_by with
    | None => Raise (KeyError group_by)
    | Some c =>
        let grouped_df := agg_count_mean (groupby c df) in
        let grouped_df := round_support_rate grouped_df in
        Return (to_dict_records group_by grouped_df)
    end.

(** ** Reading the responses

    The [AggregateResult] and the filter of the specification, next to the
    definitions above. *)

Record AggregateResult : Type := mkAggregateResult {
  count : Z;
  support_rate : pyfloat
}.

(** The [{"count": int, "support_rate": float}] body as an
    [AggregateResult]. *)
Definition as_AggregateResult (d : dict) : option AggregateResult :=
  match dict_get "count" d, dict_get "support_rate" d with
  | Some (VInt n), Some (VFloat x) => Some (mkAggregateResult n x)
  | _, _ => None
  end.

(** The results the operations can produce over a table: the body of the
    overall and of the filtered response, and the count and rate of an entry
    of the grouped response. *)
Inductive produced (df : DataFrame) : AggregateResult -> Prop :=
| produced_overall a :
    as_AggregateResult (overall_support df) = Some a -> produced df a
| produced_support_by fs d a :
    support_by df fs = Return d -> as_AggregateResult d = Some a ->
    produced df a
| produced_grouped group_by entries d a :
    support_grouped df group_by = Return entries -> In d entries ->
    as_AggregateResult d = Some a -> produced df a.

Definition in_unit_interval (x : pyfloat) : Prop :=
  match x with
  | Finite q => (0 <= q <= 1)%Q
  | NaN => False
  end.

Definition is_indicator (r : Record) : Prop :=
  policy_support r = 0 \/ policy_support r = 1.

(** Every categorical cell of the row is present. *)
Definition complete (r : Record) : Prop :=
  forall c, cell c r <> None.

(** The arithmetic mean of the indicator, each cell read as a rational, with
    the convention [0.0] on no records. *)
Definition arithmetic_mean (records : list Record) : Q :=
  match records with
  | [] => 0
  | _ :: _ =>
      fold_right (fun r acc => inject_Z (policy_support r) + acc) 0 records
      / inject_Z (Z.of_nat (length records))
  end%Q.

(** A field of a [FilterSpec] constrains its column when it is present and
    not empty. *)
Definition field (c : Column) (fs : FilterSpec) : option string :=
  match c with
  | Gender => fs_gender fs
  | Race => fs_race fs
  | Age_group => fs_age_group fs
  | Education => fs_education fs
  | Income => fs_income fs
  end.

Definition set_field (c : Column) (v : option string) (fs : FilterSpec)
  : FilterSpec :=
  match c with
  | Gender => mkFilterSpec v (fs_race fs) (fs_age_group fs) (fs_education fs) (fs_income fs)
  | Race => mkFilterSpec (fs_gender fs) v (fs_age_group fs) (fs_education fs) (fs_income fs)
  | Age_group => mkFilterSpec (fs_gender fs) (fs_race fs) v (fs_education fs) (fs_income fs)
  | Education => mkFilterSpec (fs_gender fs) (fs_race fs) (fs_age_group fs) v (fs_income fs)
  | Income => mkFilterSpec (fs_gender fs) (fs_race fs) (fs_age_group fs) (fs_education fs) v
  end.

Definition unconstrained (v : option string) : Prop :=
  v = None \/ v = Some "".

(** The filter as the specification words it: a record is kept when, for
    each field that is present and not empty, its attribute equals the
    field after folding the case of both; the fields are joined by AND. *)
Definition field_ok (c : Column) (fs : FilterSpec) (r : Record) : bool :=
  match field c fs with
  | None => true
  | Some v =>
      if String.eqb v "" then true
      else match cell c r with
           | Some a => String.eqb (casefold a) (casefold v)
           | None => false
           end
  end.

Definition matches (fs : FilterSpec) (r : Record) : bool :=
  field_ok Gender fs r && field_ok Race fs r && field_ok Age_group fs r
  && field_ok Education fs r && field_ok Income fs r.




(** The group values and the counts of a grouped response. *)
Definition group_value (key : string) (d : dict) : option string :=
  match dict_get key d with
  | Some (VStr k) => Some k
  | _ => None
  end.

Definition entry_count (d : dict) : Z :=
  match dict_get "count" d with
  | Some (VInt n) => n
  | _ => 0
  end.

Definition total_count (entries : list dict) : Z :=
  fold_right (fun d acc => entry_count d + acc) 0 entries.

(** The order of Python strings: by code point, position by position. *)
Definition str_lt (a b : string) : Prop := String.compare a b = Lt.

(** The keys of the groups and the number of cells they hold together. *)
Definition keys (gs : list (string * list Z)) : list string := map fst gs.

Definition sizes (gs : list (string * list Z)) : Z :=
  fold_right (fun g acc => Z.of_nat (length (snd g)) + acc) 0 gs.

(** ** The running example *)

Definition respondent (g : string) (s : Z) : Record :=
  mkRecord (Some g) (Some "White") (Some "18-29") (Some "College")
           (Some "Middle") s.

Definition D4 : DataFrame :=
  [respondent "F" 1; respondent "F" 0; respondent "M" 1; respondent "M" 1].

(** A table whose one respondent does not support the policy. *)
Definition one_opponent : DataFrame := [respondent "F" 0].

(** The [FilterSpec] with one field given. *)
Definition single (c : Column) (v : option string) : FilterSpec :=
  set_field c v no_filter.

Definition only_gender (g : string) : FilterSpec := single Gender (Some g).

(** ** Rows of a group

    What the grouped endpoint is compared with: the rows whose cell in the
    grouping column is exactly a given value, the rows whose cell is
    present, and the cells a list of groups holds under a key. *)

Definition cell_is (c : Column) (k : string) (r : Record) : bool :=
  match cell c r with
  | Some a => String.eqb k a
  | None => false
  end.

Definition present (c : Column) (r : Record) : bool :=
  match cell c r with
  | Some _ => true
  | None => false
  end.

Fixpoint cells_of (k : string) (gs : list (string * list Z)) : list Z :=
  match gs with
  | [] => []
  | g :: gs' => if String.eqb k (fst g) then snd g else cells_of k gs'
  end.

(** A field that [if field:] lets through to its filter step. *)
Definition constrained (c : Column) (fs : FilterSpec) (v : string) : Prop :=
  field c fs = Some v /\ v <> "".

(** ** The operations on the running example *)

Example overall_D4 :
  overall_support D4 = [("count", VInt 4); ("support_rate", VFloat (Finite (3 # 4)))].
Proof. reflexivity. Qed.

Example support_by_D4_f :
  support_by D4 (only_gender "f")
  = Return [("count", VInt 2); ("support_rate", VFloat (Finite (1 # 2)))].
Proof. reflexivity. Qed.

Example support_by_D4_nonbinary :
  support_by D4 (only_gender "Nonbinary")
  = Raise (HTTPException 404 "No respondents match the given filters.").
Proof. reflexivity. Qed.

Example grouped_D4_gender :
  support_grouped (rev D4) "gender"
  = Return [[("gender", VStr "F"); ("count", VInt 2); ("support_rate", VFloat (Finite (1 # 2)))];
            [("gender", VStr "M"); ("count", VInt 2); ("support_rate", VFloat (Finite 1))]].
Proof. reflexivity. Qed.

Example grouped_D4_zip_code :
  support_grouped D4 "zip_code"
  = Raise (HTTPException 400
      "Invalid group_by 'zip_code'. Must be one of ['age_group', 'education', 'gender', 'income', 'race'].").
Proof. reflexivity. Qed.

Example round_examples :
  round (Finite (2 # 3)) 3 = Finite (667 # 1000)
  /\ round (Finite (1 # 3)) 3 = Finite (333 # 1000)
  /\ round (Finite (1 # 8)) 3 = Finite (1 # 8)
  /\ round (Finite (1 # 16)) 3 = Finite (31 # 500).
Proof. repeat split. Qed.

Example filter_is_not_substring :
  apply_filters [respondent "Female" 1] (only_gender "male") = []
  /\ apply_filters [respondent "Female" 1] (only_gender "FEMALE")
     = [respondent "Female" 1].
Proof. split; reflexivity. Qed.

(** A row whose grouping cell is missing belongs to no group. *)
Example grouped_skips_missing_cell :
  support_grouped
    [mkRecord None (Some "White") (Some "18-29") (Some "College")
              (Some "Middle") 1] "gender"
  = Return [].
Proof. reflexivity. Qed.

(** ** The filter engine *)

Lemma filter_filter {A : Type} (p q : A -> bool) (l : list A) :
  filter p (filter q l) = filter (fun x => q x && p x) l.
Proof.
  induction l as [| x l IH]; simpl; [reflexivity|].
  destruct (q x); simpl; [destruct (p x)|]; now rewrite IH.
Qed.

Lemma filter_true {A : Type} (l : list A) : filter (fun _ => true) l = l.
Proof. induction l as [| x l IH]; simpl; congruence. Qed.

Lemma truthy_false v : truthy v = false <-> unconstrained v.
Proof.
  unfold unconstrained; destruct v as [s|]; simpl.
  - rewrite negb_false_iff, String.eqb_eq. split.
    + intros ->. now right.
    + intros [H|H]; congruence.
  - split; auto.
Qed.

(** Each step of the source keeps the rows that the field accepts. *)
Lemma filter_step_field_ok c fs sub_df :
  filter_step c (field c fs) sub_df = filter (field_ok c fs) sub_df.
Proof.
  unfold filter_step, field_ok, casefold_eq.
  destruct (field c fs) as [v|]; simpl.
  - destruct (String.eqb v ""); simpl; [now rewrite filter_true | reflexivity].
  - now rewrite filter_true.
Qed.

(** The sequence of steps is one pass with the conjunction of the fields. *)
Lemma apply_filters_matches df fs :
  apply_filters df fs = filter (matches fs) df.
Proof.
  unfold apply_filters.
  change (fs_gender fs) with (field Gender fs).
  change (fs_race fs) with (field Race fs).
  change (fs_age_group fs) with (field Age_group fs).
  change (fs_education fs) with (field Education fs).
  change (fs_income fs) with (field Income fs).
  rewrite !filter_step_field_ok, !filter_filter.
  apply filter_ext. intros r. unfold matches.
  now rewrite !andb_assoc.
Qed.

Lemma filter_step_unconstrained c v sub_df :
  unconstrained v -> filter_step c v sub_df = sub_df.
Proof.
  intros H. apply truthy_false in H. unfold filter_step. now rewrite H.
Qed.


Lemma field_set_field_same c v fs : field c (set_field c v fs) = v.
Proof. now destruct c. Qed.




(** ** Case folding *)



Lemma casefold_eq_spec v x :
  casefold_eq v x = true <-> exists a, x = Some a /\ casefold a = casefold v.
Proof.
  unfold casefold_eq. destruct x as [a|].
  - rewrite String.eqb_eq. split.
    + intros H. now exists a.
    + intros (a' & [= <-] & H). exact H.
  - split; [discriminate | intros (a & [=] & _)].
Qed.

Lemma matches_single c v r :
  matches (single c v) r = field_ok c (single c v) r.
Proof.
  destruct c; unfold matches, field_ok; simpl;
    now rewrite ?andb_true_r, ?andb_true_l.
Qed.

Lemma field_ok_single c v r :
  field_ok c (single c (Some v)) r
  = if String.eqb v "" then true else casefold_eq v (cell c r).
Proof.
  unfold field_ok, single. now rewrite field_set_field_same.
Qed.



(** ** Claims on filtering *)

(** C4. Applying the gender and race fields in one step equals applying the
    two single-field specs one after the other, in either order, whatever the
    two values are; the one-step result keeps exactly the rows that both
    fields accept. *)
Theorem filter_composition (df : DataFrame) (g r : option string) :
  apply_filters df (set_field Race r (single Gender g))
  = apply_filters (apply_filters df (single Gender g)) (single Race r)
  /\ apply_filters df (set_field Race r (single Gender g))
     = apply_filters (apply_filters df (single Race r)) (single Gender g)
  /\ apply_filters df (set_field Race r (single Gender g))
     = filter (fun x => field_ok Gender (single Gender g) x
                        && field_ok Race (single Race r) x) df.
Proof.
  rewrite !apply_filters_matches, !filter_filter.
  repeat split; apply filter_ext; intros x; rewrite ?matches_single;
    unfold matches, field_ok; simpl;
    rewrite ?andb_true_r; auto using andb_comm.
Qed.



(** C9. With every field absent or empty the filter returns the table
    unchanged, each such field leaving its step without effect, and the
    filtered endpoint then counts every row of a non-empty table. *)
Theorem empty_filter_is_identity (df : DataFrame) (fs : FilterSpec)
  (Hfs : forall c, unconstrained (field c fs)) :
  (forall c v sub_df, unconstrained v -> filter_step c v sub_df = sub_df)
  /\ apply_filters df fs = df
  /\ (df <> [] ->
      exists d a, support_by df fs = Return d
                  /\ as_AggregateResult d = Some a
                  /\ count a = Z.of_nat (length df)).
Proof.
  assert (Hid : apply_filters df fs = df).
  { unfold apply_filters.
    rewrite (filter_step_unconstrained Gender _ _ (Hfs Gender)).
    rewrite (filter_step_unconstrained Race _ _ (Hfs Race)).
    rewrite (filter_step_unconstrained Age_group _ _ (Hfs Age_group)).
    rewrite (filter_step_unconstrained Education _ _ (Hfs Education)).
    now rewrite (filter_step_unconstrained Income _ _ (Hfs Income)). }
  split; [| split].
  - intros c v sub_df. apply filter_step_unconstrained.
  - exact Hid.
  - intros Hne. unfold support_by. rewrite Hid.
    destruct df as [| r df']; [congruence|]. simpl empty. cbv iota.
    eexists; eexists. split; [reflexivity|]. split; reflexivity.
Qed.

Lemma empty_filter_is_identity_witness :
  apply_filters D4 (mkFilterSpec None (Some "") None None (Some "")) = D4.
Proof.
  apply (empty_filter_is_identity D4
           (mkFilterSpec None (Some "") None None (Some ""))).
  intros []; unfold unconstrained; simpl; auto.
Defined.

(** C1. The filtered endpoint raises the 404 exception exactly when the
    filtered subset is empty; otherwise it returns the size of the subset and
    the subset's rate rounded to three decimals, so a returned count is never
    zero. *)
Theorem support_by_not_found (df : DataFrame) (fs : FilterSpec) :
  (apply_filters df fs = [] <->
   support_by df fs
   = Raise (HTTPException 404 "No respondents match the given filters."))
  /\ (forall e, support_by df fs = Raise e -> apply_filters df fs = [])
  /\ (apply_filters df fs <> [] ->
      support_by df fs
      = Return [("count", VInt (Z.of_nat (length (apply_filters df fs))));
                ("support_rate",
                 VFloat (round (calculate_support_rate (apply_filters df fs)) 3))])
  /\ (forall d, support_by df fs = Return d ->
      exists a, as_AggregateResult d = Some a /\ 0 < count a).
Proof.
  unfold support_by.
  destruct (apply_filters df fs) as [| r sub] eqn:E; simpl empty; cbv iota.
  - repeat split; try congruence; discriminate.
  - repeat split; try congruence; try discriminate.
    intros d [= <-]. eexists. split; [reflexivity|]. simpl. lia.
Qed.

Lemma support_by_not_found_witness :
  support_by D4 (only_gender "Nonbinary")
  = Raise (HTTPException 404 "No respondents match the given filters.").
Proof.
  apply (support_by_not_found D4 (only_gender "Nonbinary")).
  reflexivity.
Defined.

(** ** Rates and rounding *)

Lemma fold_left_Zadd l a : fold_left Z.add l a = a + Zsum l.
Proof.
  unfold Zsum. revert a.
  induction l as [| x l IH]; intros a; simpl; [lia|].
  rewrite (IH (a + x)), (IH x). lia.
Qed.

Lemma Zsum_cons x l : Zsum (x :: l) = x + Zsum l.
Proof. unfold Zsum at 1. simpl. apply fold_left_Zadd. Qed.


Lemma Zsum_indicator (l : list Z) :
  Forall (fun z => z = 0 \/ z = 1) l ->
  0 <= Zsum l <= Z.of_nat (length l).
Proof.
  induction 1 as [| z l Hz _ IH]; [cbv; split; congruence|].
  cbn [length]. rewrite Zsum_cons, Nat2Z.inj_succ.
  destruct Hz as [-> | ->]; lia.
Qed.

Lemma Series_mean_unit (l : list Z) :
  l <> [] -> Forall (fun z => z = 0 \/ z = 1) l ->
  exists q, Series_mean l = Finite q /\ (0 <= q <= 1)%Q.
Proof.
  intros Hne H. destruct l as [| z l]; [congruence|].
  eexists. split; [reflexivity|].
  apply Zsum_indicator in H.
  set (s := Zsum (z :: l)) in *.
  set (n := Z.of_nat (length (z :: l))) in *.
  assert (Hn : 0 < n) by (subst n; cbn [length]; lia).
  assert (HnQ : (inject_Z 0 < inject_Z n)%Q) by (rewrite <- Zlt_Qlt; exact Hn).
  change (inject_Z 0) with 0%Q in HnQ.
  split.
  - apply Qle_shift_div_l; [exact HnQ|].
    rewrite Qmult_0_l. change (inject_Z 0 <= inject_Z s)%Q.
    rewrite <- Zle_Qle. lia.
  - apply Qle_shift_div_r; [exact HnQ|].
    rewrite Qmult_1_l. rewrite <- Zle_Qle. lia.
Qed.

Lemma Qsum_Zsum (df : DataFrame) :
  (fold_right (fun r acc => inject_Z (policy_support r) + acc) 0 df
   == inject_Z (Zsum (map policy_support df)))%Q.
Proof.
  induction df as [| r df IH]; [reflexivity|].
  cbn [fold_right map]. rewrite Zsum_cons, inject_Z_plus, IH. reflexivity.
Qed.



(** Rounding to the nearest integer does not leave an interval with integer
    ends. *)
Lemma round_half_even_between lo hi q :
  (inject_Z lo <= q <= inject_Z hi)%Q -> lo <= round_half_even q <= hi.
Proof.
  intros [Hlo Hhi].
  assert (Hf1 : lo <= Qfloor q).
  { rewrite <- (Qfloor_Z lo). now apply Qfloor_resp_le. }
  assert (Hf2 : Qfloor q <= hi).
  { rewrite <- (Qfloor_Z hi). now apply Qfloor_resp_le. }
  assert (Hup : (1 # 2 <= q - inject_Z (Qfloor q))%Q -> Qfloor q + 1 <= hi).
  { intros Hhalf.
    destruct (Z.eq_dec (Qfloor q) hi) as [E|E]; [|lia].
    exfalso. rewrite E in Hhalf.
    assert (Hc : (q - inject_Z hi <= 0)%Q).
    { rewrite <- (Qplus_opp_r (inject_Z hi)).
      apply Qplus_le_l. exact Hhi. }
    assert (Hlt : (0 < 1 # 2)%Q) by reflexivity.
    apply (Qlt_irrefl 0).
    eapply Qlt_le_trans; [exact Hlt|].
    eapply Qle_trans; [exact Hhalf | exact Hc]. }
  unfold round_half_even.
  destruct (q - inject_Z (Qfloor q) ?= 1 # 2)%Q eqn:E.
  - apply Qeq_alt in E.
    destruct (Z.even (Qfloor q)); [lia|].
    assert (Qfloor q + 1 <= hi) by (apply Hup; rewrite E; apply Qle_refl).
    lia.
  - lia.
  - apply Qgt_alt in E.
    assert (Qfloor q + 1 <= hi) by (apply Hup; now apply Qlt_le_weak).
    lia.
Qed.

Lemma round3_unit q :
  (0 <= q <= 1)%Q -> in_unit_interval (round (Finite q) 3).
Proof.
  intros [H0 H1]. unfold round, in_unit_interval.
  change (10 ^ 3) with 1000.
  assert (Hb : 0 <= round_half_even (q * inject_Z 1000) <= 1000).
  { apply round_half_even_between. split.
    - change (inject_Z 0) with (0 * inject_Z 1000)%Q.
      apply Qmult_le_compat_r; [exact H0 | discriminate].
    - change (inject_Z 1000) with (1 * inject_Z 1000)%Q at 2.
      apply Qmult_le_compat_r; [exact H1 | discriminate]. }
  rewrite Qred_correct.
  set (k := round_half_even (q * inject_Z 1000)) in *.
  split.
  - apply Qle_shift_div_l; [reflexivity|].
    rewrite Qmult_0_l. change (inject_Z 0 <= inject_Z k)%Q.
    rewrite <- Zle_Qle. lia.
  - apply Qle_shift_div_r; [reflexivity|].
    rewrite Qmult_1_l. rewrite <- Zle_Qle. lia.
Qed.

Lemma calculate_support_rate_cons r df :
  calculate_support_rate (r :: df)
  = Finite (inject_Z (Zsum (map policy_support (r :: df)))
            / inject_Z (Z.of_nat (length (r :: df)))).
Proof.
  unfold calculate_support_rate, Series_mean. cbn [empty map].
  now rewrite <- (length_map policy_support (r :: df)).
Qed.

Lemma calculate_support_rate_mean df :
  exists q, calculate_support_rate df = Finite q
            /\ (q == arithmetic_mean df)%Q.
Proof.
  destruct df as [| r df].
  - exists 0%Q. split; reflexivity.
  - eexists. split; [apply calculate_support_rate_cons|].
    unfold arithmetic_mean. rewrite Qsum_Zsum. reflexivity.
Qed.

Lemma calculate_support_rate_unit df :
  Forall is_indicator df ->
  exists q, calculate_support_rate df = Finite q /\ (0 <= q <= 1)%Q.
Proof.
  intros H. destruct df as [| r df].
  - exists 0%Q. repeat split; discriminate.
  - unfold calculate_support_rate. cbn [empty].
    apply Series_mean_unit; [discriminate|].
    apply Forall_map. exact H.
Qed.

Lemma apply_filters_Forall (P : Record -> Prop) df fs :
  Forall P df -> Forall P (apply_filters df fs).
Proof.
  rewrite apply_filters_matches, !Forall_forall.
  intros H r Hr. apply filter_In in Hr. now apply H.
Qed.

Lemma as_AggregateResult_body n x :
  as_AggregateResult [("count", VInt n); ("support_rate", VFloat x)]
  = Some (mkAggregateResult n x).
Proof. reflexivity. Qed.

Lemma support_by_Return df fs d :
  support_by df fs = Return d ->
  apply_filters df fs <> []
  /\ d = [("count", VInt (Z.of_nat (length (apply_filters df fs))));
          ("support_rate",
           VFloat (round (calculate_support_rate (apply_filters df fs)) 3))].
Proof.
  unfold support_by. cbv zeta.
  destruct (apply_filters df fs) as [| r sub]; [discriminate|].
  change (empty (r :: sub)) with false. cbv iota.
  intros H. split; congruence.
Qed.

(** ** Claims on the aggregate results *)


(** C7. The rate of no records is exactly [0.0], and the rate of any records
    is a number, never [NaN]; the function has no failing branch. *)
Theorem calculate_support_rate_total :
  calculate_support_rate [] = Finite 0
  /\ forall sub_df, exists q, calculate_support_rate sub_df = Finite q.
Proof.
  split; [reflexivity|].
  intros [| r df]; eexists; [reflexivity | apply calculate_support_rate_cons].
Qed.

(** The guard of [calculate_support_rate] is what keeps [NaN] out: the mean
    of an empty column alone is [NaN]. *)
Remark Series_mean_empty : Series_mean [] = NaN.
Proof. reflexivity. Qed.

(** ** The order of strings *)

Lemma ascii_compare_refl a : Ascii.compare a a = Eq.
Proof. unfold Ascii.compare. apply N.compare_refl. Qed.

Lemma ascii_compare_lt_trans a b c :
  Ascii.compare a b = Lt -> Ascii.compare b c = Lt -> Ascii.compare a c = Lt.
Proof.
  unfold Ascii.compare. rewrite !N.compare_lt_iff. apply N.lt_trans.
Qed.

Lemma str_lt_trans a b c : str_lt a b -> str_lt b c -> str_lt a c.
Proof.
  unfold str_lt. revert b c.
  induction a as [| x a IH]; intros [| y b] [| z c]; simpl;
    try discriminate; try reflexivity.
  destruct (Ascii.compare x y) eqn:Exy; try discriminate;
    destruct (Ascii.compare y z) eqn:Eyz; try discriminate; intros Hab Hbc.
  - apply Ascii.compare_eq_iff in Exy, Eyz. subst y z.
    rewrite ascii_compare_refl. now apply (IH b c).
  - apply Ascii.compare_eq_iff in Exy. subst y. now rewrite Eyz.
  - apply Ascii.compare_eq_iff in Eyz. subst z. now rewrite Exy.
  - now rewrite (ascii_compare_lt_trans x y z).
Qed.

Lemma str_compare_refl a : String.compare a a = Eq.
Proof.
  induction a as [| x a IH]; simpl; [reflexivity|].
  now rewrite ascii_compare_refl.
Qed.

Lemma str_lt_irrefl a : ~ str_lt a a.
Proof. unfold str_lt. rewrite str_compare_refl. discriminate. Qed.

Lemma str_compare_Gt a b : String.compare a b = Gt -> str_lt b a.
Proof.
  unfold str_lt. intros H. rewrite String.compare_antisym, H. reflexivity.
Qed.

(** A strictly ascending list is determined by its elements. *)
Lemma ascending_unique (l1 l2 : list string) :
  StronglySorted str_lt l1 -> StronglySorted str_lt l2 ->
  (forall x, In x l1 <-> In x l2) -> l1 = l2.
Proof.
  intros H1. revert l2.
  induction H1 as [| a l1 Hs1 IH Ha]; intros l2 H2 Hin.
  - destruct l2 as [| b l2]; [reflexivity|].
    destruct (proj2 (Hin b) (or_introl eq_refl)).
  - destruct H2 as [| b l2 Hs2 Hb].
    + destruct (proj1 (Hin a) (or_introl eq_refl)).
    + rewrite Forall_forall in Ha, Hb.
      assert (Eab : a = b).
      { destruct (proj1 (Hin a) (or_introl eq_refl)) as [E | Hal2]; [auto|].
        destruct (proj2 (Hin b) (or_introl eq_refl)) as [E | Hbl1]; [auto|].
        exfalso. apply (str_lt_irrefl a).
        apply (str_lt_trans a b a); auto. }
      subst b. f_equal. apply IH; [exact Hs2|].
      intros x. split; intros Hx.
      * destruct (proj1 (Hin x) (or_intror Hx)) as [E | H]; [|exact H].
        subst x. exfalso. apply (str_lt_irrefl a). auto.
      * destruct (proj2 (Hin x) (or_intror Hx)) as [E | H]; [|exact H].
        subst x. exfalso. apply (str_lt_irrefl a). auto.
Qed.

Lemma ascending_NoDup (l : list string) :
  StronglySorted str_lt l -> NoDup l.
Proof.
  induction 1 as [| a l _ IH Ha]; constructor; [|exact IH].
  rewrite Forall_forall in Ha. intros Hin.
  apply (str_lt_irrefl a). auto.
Qed.

(** ** Grouping *)

Lemma insert_group_keys k v gs x :
  In x (keys (insert_group k v gs)) <-> x = k \/ In x (keys gs).
Proof.
  induction gs as [| [k' vs] gs IH]; simpl.
  - intuition.
  - destruct (String.compare k k') eqn:E; simpl.
    + apply String.compare_eq_iff in E. subst k'. intuition.
    + intuition.
    + unfold keys in IH. rewrite IH. intuition.
Qed.

Lemma insert_group_ascending k v gs :
  StronglySorted str_lt (keys gs) ->
  StronglySorted str_lt (keys (insert_group k v gs)).
Proof.
  induction gs as [| [k' vs] gs IH]; simpl; intros Hs.
  - repeat constructor.
  - apply StronglySorted_inv in Hs. destruct Hs as [Hs Hk'].
    destruct (String.compare k k') eqn:E; simpl.
    + constructor; assumption.
    + constructor; [constructor; assumption|].
      constructor; [exact E|].
      rewrite Forall_forall in *. intros x Hx.
      apply (str_lt_trans k k' x); [exact E | auto].
    + constructor; [now apply IH|].
      rewrite Forall_forall in *. intros x Hx.
      apply insert_group_keys in Hx. destruct Hx as [-> | Hx].
      * now apply str_compare_Gt.
      * auto.
Qed.

Lemma sizes_cons g gs :
  sizes (g :: gs) = Z.of_nat (length (snd g)) + sizes gs.
Proof. reflexivity. Qed.

Lemma insert_group_sizes k v gs :
  sizes (insert_group k v gs) = 1 + sizes gs.
Proof.
  induction gs as [| [k' vs] gs IH]; [reflexivity|].
  cbn [insert_group].
  destruct (String.compare k k'); rewrite !sizes_cons; cbn [snd].
  - rewrite length_app, Nat2Z.inj_add. cbn [length]. lia.
  - cbn [length]. lia.
  - rewrite IH. lia.
Qed.

(** The three facts carried along the rows of the table. *)
Lemma groupby_fold_keys c df gs x :
  In x (keys (fold_left (group_row c) df gs))
  <-> In x (keys gs) \/ exists r, In r df /\ cell c r = Some x.
Proof.
  revert gs. induction df as [| r df IH]; intros gs; simpl.
  - split; [auto | intros [H | (r & [] & _)]; exact H].
  - rewrite IH. unfold group_row.
    destruct (cell c r) as [k|] eqn:E.
    + rewrite insert_group_keys. split.
      * intros [[-> | H] | (r' & Hr' & Hc)]; eauto.
      * intros [H | (r' & [-> | Hr'] & Hc)]; eauto.
        left. left. congruence.
    + split.
      * intros [H | (r' & Hr' & Hc)]; eauto.
      * intros [H | (r' & [-> | Hr'] & Hc)]; eauto. congruence.
Qed.

Lemma groupby_fold_ascending c df gs :
  StronglySorted str_lt (keys gs) ->
  StronglySorted str_lt (keys (fold_left (group_row c) df gs)).
Proof.
  revert gs. induction df as [| r df IH]; intros gs Hs; simpl; [exact Hs|].
  apply IH. unfold group_row.
  destruct (cell c r); [now apply insert_group_ascending | exact Hs].
Qed.

Lemma groupby_fold_sizes c df gs :
  Forall (fun r => cell c r <> None) df ->
  sizes (fold_left (group_row c) df gs) = sizes gs + Z.of_nat (length df).
Proof.
  intros H. revert gs.
  induction H as [| r df Hr _ IH]; intros gs; [simpl; lia|].
  cbn [fold_left length]. rewrite IH. unfold group_row.
  destruct (cell c r); [|congruence].
  rewrite insert_group_sizes. lia.
Qed.

Lemma insert_group_cells (P : Z -> Prop) k v gs :
  P v ->
  Forall (fun g => snd g <> [] /\ Forall P (snd g)) gs ->
  Forall (fun g => snd g <> [] /\ Forall P (snd g)) (insert_group k v gs).
Proof.
  intros Hv. induction 1 as [| [k' vs] gs [Hne Hvs] Hgs IH]; cbn [insert_group].
  - repeat constructor; [discriminate | exact Hv].
  - cbn [snd] in *. destruct (String.compare k k').
    + constructor; [|exact Hgs]. cbn [snd]. split.
      * intros E. apply app_eq_nil in E. destruct E as [_ E]. discriminate.
      * apply Forall_app. split; [exact Hvs | now constructor].
    + constructor; [|constructor; [split; assumption | exact Hgs]].
      cbn [snd]. split; [discriminate | now constructor].
    + constructor; [split; assumption | exact IH].
Qed.

Lemma groupby_cells (P : Z -> Prop) c df :
  Forall (fun r => P (policy_support r)) df ->
  Forall (fun g => snd g <> [] /\ Forall P (snd g)) (groupby c df).
Proof.
  unfold groupby. intros H.
  assert (H0 : Forall (fun g : string * list Z =>
                         snd g <> [] /\ Forall P (snd g)) [])
    by constructor.
  revert H0. generalize (@nil (string * list Z)).
  induction H as [| r df Hr _ IH]; intros gs Hgs; [exact Hgs|].
  cbn [fold_left]. apply IH. unfold group_row.
  destruct (cell c r); [now apply insert_group_cells | exact Hgs].
Qed.

(** ** The grouped response *)

Lemma mem_In g l : mem g l = true <-> In g l.
Proof.
  unfold mem. rewrite existsb_exists. split.
  - intros (x & Hx & E). apply String.eqb_eq in E. now subst x.
  - intros H. exists g. split; [exact H | apply String.eqb_refl].
Qed.

Lemma valid_columns_names g :
  In g valid_columns <-> exists c, g = column_name c.
Proof.
  unfold valid_columns. simpl. split.
  - intros [<- | [<- | [<- | [<- | [<- | []]]]]];
      [exists Gender | exists Race | exists Age_group
       | exists Education | exists Income]; reflexivity.
  - intros ([] & ->); simpl; auto 6.
Qed.

Lemma support_grouped_column df c :
  support_grouped df (column_name c)
  = Return (to_dict_records (column_name c)
              (round_support_rate (agg_count_mean (groupby c df)))).
Proof. destruct c; reflexivity. Qed.

Lemma support_grouped_invalid df g :
  ~ In g valid_columns ->
  support_grouped df g
  = Raise (HTTPException 400
             ("Invalid group_by '" ++ g ++ "'. Must be one of "
              ++ repr_list (sorted valid_columns) ++ ".")).
Proof.
  intros H. unfold support_grouped.
  destruct (mem g valid_columns) eqn:E; [|reflexivity].
  apply mem_In in E. contradiction.
Qed.

Lemma entry_fields c row :
  group_value (column_name c) (entry (column_name c) row) = Some (fst (fst row))
  /\ entry_count (entry (column_name c) row) = snd (fst row)
  /\ dict_get "group_value" (entry (column_name c) row) = None
  /\ map fst (entry (column_name c) row)
     = [column_name c; "count"; "support_rate"]
  /\ as_AggregateResult (entry (column_name c) row)
     = Some (mkAggregateResult (snd (fst row)) (snd row)).
Proof. destruct c; repeat split. Qed.

Lemma grouped_values c gs :
  map (group_value (column_name c))
      (to_dict_records (column_name c) (round_support_rate (agg_count_mean gs)))
  = map Some (keys gs).
Proof.
  unfold to_dict_records, round_support_rate, agg_count_mean, keys.
  rewrite !map_map. apply map_ext. intros g.
  apply (entry_fields c).
Qed.

Lemma grouped_total_count c gs :
  total_count
    (to_dict_records (column_name c) (round_support_rate (agg_count_mean gs)))
  = sizes gs.
Proof.
  induction gs as [| g gs IH]; [reflexivity|].
  rewrite sizes_cons, <- IH.
  unfold to_dict_records, round_support_rate, agg_count_mean.
  cbn [map total_count fold_right]. f_equal.
  apply (entry_fields c (fst g, Z.of_nat (length (snd g)), round (Series_mean (snd g)) 3)).
Qed.

Lemma grouped_entries_shape c gs :
  Forall (fun d => map fst d = [column_name c; "count"; "support_rate"]
                   /\ dict_get "group_value" d = None)
    (to_dict_records (column_name c) (round_support_rate (agg_count_mean gs))).
Proof.
  unfold to_dict_records. apply Forall_forall. intros d Hd.
  apply in_map_iff in Hd. destruct Hd as (row & <- & _).
  split; apply (entry_fields c row).
Qed.

Lemma groupby_keys c df x :
  In x (keys (groupby c df)) <-> exists r, In r df /\ cell c r = Some x.
Proof.
  unfold groupby. rewrite groupby_fold_keys. simpl. intuition.
Qed.

Lemma groupby_ascending c df : StronglySorted str_lt (keys (groupby c df)).
Proof. apply groupby_fold_ascending. constructor. Qed.

Lemma groupby_keys_Permutation c df df' :
  Permutation df df' -> keys (groupby c df) = keys (groupby c df').
Proof.
  intros HP. apply ascending_unique; try apply groupby_ascending.
  intros x. rewrite !groupby_keys.
  split; intros (r & Hr & Hc); exists r; split; auto.
  - now apply (Permutation_in _ HP).
  - now apply (Permutation_in _ (Permutation_sym HP)).
Qed.

(** ** Claims on the grouped endpoint *)

(** C2. The grouped endpoint raises, and then the 400 exception, exactly when
    [group_by] is outside the allow-list; there it returns no result at all,
    and on every name of the allow-list it returns a result. *)
Theorem support_grouped_invalid_column (df : DataFrame) (group_by : string) :
  (In group_by ["gender"; "race"; "age_group"; "education"; "income"] ->
   exists entries, support_grouped df group_by = Return entries)
  /\ (~ In group_by ["gender"; "race"; "age_group"; "education"; "income"] ->
      (exists detail,
         support_grouped df group_by = Raise (HTTPException 400 detail))
      /\ forall entries, support_grouped df group_by <> Return entries)
  /\ (forall e, support_grouped df group_by = Raise e ->
      ~ In group_by ["gender"; "race"; "age_group"; "education"; "income"]
      /\ exists detail, e = HTTPException 400 detail).
Proof.
  change ["gender"; "race"; "age_group"; "education"; "income"]
    with valid_columns.
  assert (Hvalid : In group_by valid_columns ->
            exists entries, support_grouped df group_by = Return entries).
  { intros H. apply valid_columns_names in H. destruct H as (c & ->).
    rewrite support_grouped_column. eauto. }
  split; [exact Hvalid|]. split.
  - intros H. rewrite (support_grouped_invalid df group_by H).
    split; [eauto | discriminate].
  - intros e He.
    assert (Hn : ~ In group_by valid_columns).
    { intros H. destruct (Hvalid H) as (entries & E). congruence. }
    split; [exact Hn|].
    rewrite (support_grouped_invalid df group_by Hn) in He.
    eexists. symmetry. injection He as He. exact He.
Qed.

(** C8. Over a table in which every row has all five categorical cells, the
    grouped endpoint returns, for every valid column, entries whose counts
    add up to the number of rows, with one entry for each distinct value
    seen in that column. *)
Theorem grouping_completeness (df : DataFrame) (c : Column)
  (Hdf : Forall complete df) :
  In (column_name c) valid_columns
  /\ exists entries values,
       support_grouped df (column_name c) = Return entries
       /\ total_count entries = Z.of_nat (length df)
       /\ map (group_value (column_name c)) entries = map Some values
       /\ NoDup values
       /\ (forall v, In v values <->
                     exists r, In r df /\ cell c r = Some v).
Proof.
  split; [apply valid_columns_names; eauto|].
  exists (to_dict_records (column_name c)
            (round_support_rate (agg_count_mean (groupby c df)))).
  exists (keys (groupby c df)).
  split; [apply support_grouped_column|]. split; [|split; [|split]].
  - rewrite grouped_total_count. unfold groupby.
    rewrite groupby_fold_sizes; [reflexivity|].
    apply (Forall_impl _ (fun r (H : complete r) => H c) Hdf).
  - apply grouped_values.
  - apply ascending_NoDup, groupby_ascending.
  - apply groupby_keys.
Qed.

Lemma grouping_completeness_witness :
  In "gender" valid_columns
  /\ exists entries values,
       support_grouped D4 "gender" = Return entries
       /\ total_count entries = 4
       /\ map (group_value "gender") entries = map Some values
       /\ NoDup values
       /\ (forall v, In v values <->
                     exists r, In r D4 /\ cell Gender r = Some v).
Proof.
  apply (grouping_completeness D4 Gender).
  repeat constructor; intros []; discriminate.
Defined.

(** C10. For every valid column the entries come in strictly ascending order
    of the group value, an order that depends on the rows of the table only
    and not on their arrangement; each entry has the keys [<column>],
    [count] and [support_rate], and no key [group_value]. *)
Theorem grouped_order_and_key (df : DataFrame) (c : Column) :
  exists entries values,
    support_grouped df (column_name c) = Return entries
    /\ map (group_value (column_name c)) entries = map Some values
    /\ StronglySorted str_lt values
    /\ Forall (fun d => map fst d = [column_name c; "count"; "support_rate"]
                        /\ dict_get "group_value" d = None) entries
    /\ (forall df', Permutation df df' ->
        exists entries',
          support_grouped df' (column_name c) = Return entries'
          /\ map (group_value (column_name c)) entries' = map Some values).
Proof.
  exists (to_dict_records (column_name c)
            (round_support_rate (agg_count_mean (groupby c df)))).
  exists (keys (groupby c df)).
  split; [apply support_grouped_column|]. split; [apply grouped_values|].
  split; [apply groupby_ascending|]. split; [apply grouped_entries_shape|].
  intros df' HP. eexists. split; [apply support_grouped_column|].
  rewrite (groupby_keys_Permutation c df df' HP). apply grouped_values.
Qed.

Lemma support_grouped_Return df g entries :
  support_grouped df g = Return entries ->
  exists c, g = column_name c
            /\ entries = to_dict_records (column_name c)
                           (round_support_rate (agg_count_mean (groupby c df))).
Proof.
  intros H. destruct (mem g valid_columns) eqn:E.
  - apply mem_In, valid_columns_names in E. destruct E as (c & ->).
    exists c. split; [reflexivity|].
    rewrite support_grouped_column in H. congruence.
  - unfold support_grouped in H. rewrite E in H. discriminate.
Qed.

(** ** Claim on the range of the support rate *)

(** C3, as stated, fails: a table of one respondent who does not support the
    policy has support rate [0.0] with count 1. *)
Lemma zero_rate_positive_count :
  Forall is_indicator one_opponent
  /\ exists a, produced one_opponent a
               /\ support_rate a = Finite 0 /\ count a = 1.
Proof.
  split.
  - repeat constructor.
  - exists (mkAggregateResult 1 (Finite 0)).
    split; [| split; reflexivity].
    now apply produced_overall.
Qed.

(** C3, amended. Over a table whose indicator is 0 or 1 everywhere, every
    result of the operations (the overall and the filtered response, and
    each entry of the grouped response) has its support rate between 0 and 1,
    a non-negative count, and support rate [0.0] whenever its count is 0. *)
Theorem support_rate_in_unit_interval (df : DataFrame) (a : AggregateResult)
  (Hdf : Forall is_indicator df) (Ha : produced df a) :
  in_unit_interval (support_rate a)
  /\ 0 <= count a
  /\ (count a = 0 -> support_rate a = Finite 0).
Proof.
  assert (Hsub : forall sub, Forall is_indicator sub ->
            in_unit_interval (round (calculate_support_rate sub) 3)).
  { intros sub H. destruct (calculate_support_rate_unit sub H) as (q & -> & Hq).
    now apply round3_unit. }
  destruct Ha as [a Ha | fs d a Hd Ha | g entries d a He Hd Ha].
  - unfold overall_support in Ha.
    rewrite as_AggregateResult_body in Ha.
    assert (Ea : a = mkAggregateResult (Z.of_nat (length df))
                       (round (calculate_support_rate df) 3)) by congruence.
    subst a. cbn [support_rate count].
    split; [now apply Hsub|]. split; [lia|].
    intros H0. destruct df; [reflexivity | discriminate].
  - destruct (support_by_Return _ _ _ Hd) as [Hne ->].
    rewrite as_AggregateResult_body in Ha.
    assert (Ea : a = mkAggregateResult
                       (Z.of_nat (length (apply_filters df fs)))
                       (round (calculate_support_rate (apply_filters df fs)) 3))
      by congruence.
    subst a. cbn [support_rate count]. split.
    + apply Hsub. now apply apply_filters_Forall.
    + split; [lia|]. intros H0.
      destruct (apply_filters df fs); [congruence | discriminate].
  - destruct (support_grouped_Return _ _ _ He) as (c & -> & ->).
    unfold to_dict_records, round_support_rate, agg_count_mean in Hd.
    rewrite !map_map in Hd. apply in_map_iff in Hd.
    destruct Hd as ([k vs] & <- & Hg). cbn [fst snd] in Ha.
    destruct (entry_fields c (k, Z.of_nat (length vs), round (Series_mean vs) 3))
      as (_ & _ & _ & _ & Hagg).
    cbn [fst snd] in Hagg.
    assert (Ea : a = mkAggregateResult (Z.of_nat (length vs))
                       (round (Series_mean vs) 3)) by congruence.
    subst a. cbn [support_rate count].
    pose proof (groupby_cells (fun z => z = 0 \/ z = 1) c df Hdf) as Hcells.
    rewrite Forall_forall in Hcells.
    destruct (Hcells _ Hg) as [Hne H01]. cbn [snd] in Hne, H01.
    split; [| split; [lia|]].
    + destruct (Series_mean_unit vs Hne H01) as (q & -> & Hq).
      now apply round3_unit.
    + intros H0. destruct vs; [congruence | discriminate].
Qed.

Lemma support_rate_in_unit_interval_witness :
  in_unit_interval (Finite (3 # 4))
  /\ 0 <= 4
  /\ (4 = 0 -> Finite (3 # 4) = Finite 0).
Proof.
  apply (support_rate_in_unit_interval D4 (mkAggregateResult 4 (Finite (3 # 4)))).
  - repeat constructor; unfold is_indicator; simpl; lia.
  - apply produced_overall. reflexivity.
Defined.

(** ** Further properties of the filter *)

Lemma field_ok_constrained c fs v r :
  constrained c fs v ->
  (field_ok c fs r = true
   <-> exists a, cell c r = Some a /\ casefold a = casefold v).
Proof.
  intros [Hf Hv]. unfold field_ok. rewrite Hf.
  apply String.eqb_neq in Hv. rewrite Hv.
  apply (casefold_eq_spec v (cell c r)).
Qed.

Lemma field_ok_cases c fs r :
  field_ok c fs r = true
  <-> forall v, constrained c fs v ->
                exists a, cell c r = Some a /\ casefold a = casefold v.
Proof.
  split.
  - intros H v Hc. now apply (field_ok_constrained c fs v r Hc).
  - intros H.
    destruct (field c fs) as [v|] eqn:Hf;
      [| unfold field_ok; now rewrite Hf].
    destruct (String.eqb v "") eqn:Hv;
      [unfold field_ok; now rewrite Hf, Hv|].
    apply String.eqb_neq in Hv.
    assert (Hc : constrained c fs v) by (split; [exact Hf | exact Hv]).
    apply (field_ok_constrained c fs v r Hc). now apply H.
Qed.

(** X1. The filtered subset consists of the rows of the table that, for
    every field given and not empty, have a cell in that column whose case
    folding equals that of the field; a row whose cell is missing in a
    filtered column is left out. *)
Theorem apply_filters_rows (df : DataFrame) (fs : FilterSpec) (r : Record) :
  In r (apply_filters df fs)
  <-> In r df
      /\ forall c v, constrained c fs v ->
                     exists a, cell c r = Some a /\ casefold a = casefold v.
Proof.
  rewrite apply_filters_matches, filter_In. unfold matches.
  rewrite !andb_true_iff, !field_ok_cases.
  split.
  - intros (Hin & (((Hg & Hr) & Ha) & He) & Hi). split; [exact Hin|].
    intros []; assumption.
  - intros (Hin & H). split; [exact Hin|]. repeat split; apply H.
Qed.

(** X2. Filtering twice with the same parameters changes nothing more. *)
Theorem apply_filters_idempotent (df : DataFrame) (fs : FilterSpec) :
  apply_filters (apply_filters df fs) fs = apply_filters df fs.
Proof.
  rewrite !apply_filters_matches, filter_filter.
  apply filter_ext. intros r. now rewrite andb_diag.
Qed.

(** X3. Two sets of parameters applied one after the other select the same
    rows in either order. *)
Theorem apply_filters_commute (df : DataFrame) (fs1 fs2 : FilterSpec) :
  apply_filters (apply_filters df fs1) fs2
  = apply_filters (apply_filters df fs2) fs1.
Proof.
  rewrite !apply_filters_matches, !filter_filter.
  apply filter_ext. intros r. apply andb_comm.
Qed.

Lemma matches_set_field c v fs r :
  unconstrained (field c fs) ->
  matches (set_field c v fs) r = matches fs r && matches (single c v) r.
Proof.
  intros Hu. rewrite matches_single.
  assert (Hc : field_ok c fs r = true).
  { unfold field_ok. destruct Hu as [-> | ->]; reflexivity. }
  assert (Hsame : field_ok c (set_field c v fs) r = field_ok c (single c v) r).
  { unfold field_ok, single. now rewrite !field_set_field_same. }
  destruct c; unfold matches; rewrite Hsame, Hc;
    repeat match goal with
           | |- context [field_ok ?c' (set_field ?c0 v fs) r] =>
               change (field_ok c' (set_field c0 v fs) r)
                 with (field_ok c' fs r)
           end;
    repeat match goal with
           | |- context [field_ok ?a ?b r] => destruct (field_ok a b r)
           end;
    reflexivity.
Qed.

(** X4. Giving a value to a field that was absent or empty filters the
    subset selected so far, so it never selects more rows. *)
Theorem apply_filters_refine (df : DataFrame) (fs : FilterSpec) (c : Column)
  (v : option string) (Hu : unconstrained (field c fs)) :
  apply_filters df (set_field c v fs)
  = apply_filters (apply_filters df fs) (single c v)
  /\ (length (apply_filters df (set_field c v fs))
      <= length (apply_filters df fs))%nat.
Proof.
  assert (E : apply_filters df (set_field c v fs)
              = apply_filters (apply_filters df fs) (single c v)).
  { rewrite !apply_filters_matches, filter_filter.
    apply filter_ext. intros r. now apply matches_set_field. }
  split; [exact E|].
  rewrite E, (apply_filters_matches (apply_filters df fs)).
  apply filter_length_le.
Qed.

Lemma apply_filters_refine_witness :
  apply_filters D4 (set_field Gender (Some "m") (single Race (Some "white")))
  = apply_filters (apply_filters D4 (single Race (Some "white")))
                  (single Gender (Some "m"))
  /\ (length (apply_filters D4 (set_field Gender (Some "m")
                                          (single Race (Some "white"))))
      <= length (apply_filters D4 (single Race (Some "white"))))%nat.
Proof.
  apply (apply_filters_refine D4 (single Race (Some "white")) Gender (Some "m")).
  left. reflexivity.
Defined.

(** X5. A count returned by the filtered endpoint is never larger than the
    count the overall endpoint returns for the same table. *)
Theorem support_by_count_le_overall (df : DataFrame) (fs : FilterSpec)
  (d : dict) (Hd : support_by df fs = Return d) :
  exists a b,
    as_AggregateResult d = Some a
    /\ as_AggregateResult (overall_support df) = Some b
    /\ count a <= count b.
Proof.
  destruct (support_by_Return df fs d Hd) as [_ ->].
  unfold overall_support. rewrite !as_AggregateResult_body.
  eexists. eexists. split; [reflexivity|]. split; [reflexivity|].
  cbn [count]. rewrite apply_filters_matches.
  apply inj_le, filter_length_le.
Qed.

Lemma support_by_count_le_overall_witness :
  exists a b,
    as_AggregateResult
      [("count", VInt 2); ("support_rate", VFloat (Finite (1 # 2)))] = Some a
    /\ as_AggregateResult (overall_support D4) = Some b
    /\ count a <= count b.
Proof.
  apply (support_by_count_le_overall D4 (only_gender "f")).
  reflexivity.
Defined.

Lemma apply_filters_unconstrained df fs :
  (forall c, unconstrained (field c fs)) -> apply_filters df fs = df.
Proof.
  intros H. rewrite apply_filters_matches.
  rewrite (filter_ext (matches fs) (fun _ => true)); [apply filter_true|].
  intros r. unfold matches.
  assert (Hc : forall c, field_ok c fs r = true).
  { intros c. unfold field_ok. destruct (H c) as [-> | ->]; reflexivity. }
  now rewrite !Hc.
Qed.

(** X6. On a table that is not empty, the filtered endpoint called with no
    parameter, or with empty ones only, returns the very body the overall
    endpoint returns. *)
Theorem support_by_unfiltered_is_overall (df : DataFrame) (fs : FilterSpec)
  (Hfs : forall c, unconstrained (field c fs)) (Hdf : df <> []) :
  support_by df fs = Return (overall_support df).
Proof.
  unfold support_by. cbv zeta.
  rewrite (apply_filters_unconstrained df fs Hfs).
  destruct df as [| r df]; [congruence | reflexivity].
Qed.

Lemma support_by_unfiltered_is_overall_witness :
  support_by D4 (mkFilterSpec (Some "") None None None None)
  = Return (overall_support D4).
Proof.
  apply support_by_unfiltered_is_overall.
  - intros []; unfold unconstrained; simpl; auto.
  - discriminate.
Defined.

(** X7. On a table without rows the overall endpoint returns count 0 with
    rate [0.0], the filtered endpoint raises the 404 exception whatever the
    parameters, and the grouped endpoint returns no entry for every valid
    column. *)
Theorem empty_table (fs : FilterSpec) (c : Column) :
  overall_support []
  = [("count", VInt 0); ("support_rate", VFloat (Finite 0))]
  /\ support_by [] fs
     = Raise (HTTPException 404 "No respondents match the given filters.")
  /\ support_grouped [] (column_name c) = Return [].
Proof.
  split; [reflexivity|]. split.
  - unfold support_by. cbv zeta. now rewrite apply_filters_matches.
  - now rewrite support_grouped_column.
Qed.

(** ** Further properties of the groups *)

Lemma str_compare_neq a b : String.compare a b <> Eq -> String.eqb a b = false.
Proof.
  intros H. apply String.eqb_neq. intros ->. apply H, str_compare_refl.
Qed.

Lemma str_lt_neq a b : str_lt a b -> String.eqb b a = false.
Proof.
  intros H. apply String.eqb_neq. intros ->. exact (str_lt_irrefl a H).
Qed.

Lemma cells_of_absent k gs : ~ In k (keys gs) -> cells_of k gs = [].
Proof.
  induction gs as [| [k0 vs] gs IH]; [reflexivity|].
  cbn [keys map fst cells_of snd]. intros H.
  destruct (String.eqb k k0) eqn:E.
  - apply String.eqb_eq in E. subst k0. exfalso. apply H. now left.
  - apply IH. intros Hin. apply H. now right.
Qed.

Lemma cells_of_insert_group k v gs k' :
  StronglySorted str_lt (keys gs) ->
  cells_of k' (insert_group k v gs)
  = if String.eqb k' k then cells_of k gs ++ [v] else cells_of k' gs.
Proof.
  induction gs as [| [k0 vs] gs IH]; intros Hs.
  - cbn [insert_group cells_of fst snd app]. reflexivity.
  - cbn [keys map fst] in Hs. apply StronglySorted_inv in Hs.
    destruct Hs as [Hs Hk0]. rewrite Forall_forall in Hk0.
    cbn [insert_group]. destruct (String.compare k k0) eqn:E.
    + apply String.compare_eq_iff in E. subst k0.
      cbn [cells_of fst snd]. rewrite String.eqb_refl.
      destruct (String.eqb k' k); reflexivity.
    + assert (Hk : cells_of k ((k0, vs) :: gs) = []).
      { apply cells_of_absent. cbn [keys map fst]. intros [-> | Hin].
        - exact (str_lt_irrefl k E).
        - apply (str_lt_irrefl k).
          exact (str_lt_trans k k0 k E (Hk0 k Hin)). }
      rewrite Hk. cbn [app].
      change (cells_of k' ((k, [v]) :: (k0, vs) :: gs))
        with (if String.eqb k' k then [v] else cells_of k' ((k0, vs) :: gs)).
      reflexivity.
    + assert (Hne : String.eqb k k0 = false)
        by (apply str_compare_neq; congruence).
      change (cells_of k' ((k0, vs) :: insert_group k v gs))
        with (if String.eqb k' k0 then vs
              else cells_of k' (insert_group k v gs)).
      rewrite (IH Hs). cbn [cells_of fst snd]. rewrite Hne.
      destruct (String.eqb k' k0) eqn:E0; [|reflexivity].
      apply String.eqb_eq in E0. subst k'.
      rewrite String.eqb_sym, Hne. reflexivity.
Qed.

Lemma cells_of_fold c k df gs :
  StronglySorted str_lt (keys gs) ->
  cells_of k (fold_left (group_row c) df gs)
  = cells_of k gs ++ map policy_support (filter (cell_is c k) df).
Proof.
  revert gs. induction df as [| r df IH]; intros gs Hs.
  - cbn [fold_left filter map]. now rewrite app_nil_r.
  - cbn [fold_left filter]. unfold group_row at 2, cell_is at 1.
    destruct (cell c r) as [a|].
    + rewrite IH by (now apply insert_group_ascending).
      rewrite cells_of_insert_group by exact Hs.
      destruct (String.eqb k a) eqn:E.
      * apply String.eqb_eq in E. subst a.
        cbn [map]. now rewrite <- app_assoc.
      * reflexivity.
    + now apply IH.
Qed.

Lemma groups_by_key gs :
  StronglySorted str_lt (keys gs) ->
  gs = map (fun k => (k, cells_of k gs)) (keys gs).
Proof.
  induction gs as [| [k0 vs] gs IH]; intros Hs; [reflexivity|].
  cbn [keys map fst] in *. apply StronglySorted_inv in Hs.
  destruct Hs as [Hs Hk0]. rewrite Forall_forall in Hk0.
  cbn [cells_of fst snd]. rewrite String.eqb_refl. f_equal.
  rewrite (IH Hs) at 1. apply map_ext_in. intros k Hk.
  now rewrite (str_lt_neq k0 k (Hk0 k Hk)).
Qed.

(** The groups in closed form: under each key, the cells of the rows that
    carry exactly that key, in row order. *)
Lemma groupby_closed_form c df :
  groupby c df
  = map (fun k => (k, map policy_support (filter (cell_is c k) df)))
        (keys (groupby c df)).
Proof.
  rewrite (groups_by_key (groupby c df) (groupby_ascending c df)) at 1.
  apply map_ext. intros k. f_equal. unfold groupby.
  rewrite cells_of_fold by constructor. reflexivity.
Qed.

Lemma cell_is_rows_nonempty c df k :
  In k (keys (groupby c df)) -> filter (cell_is c k) df <> [].
Proof.
  intros Hk. apply groupby_keys in Hk. destruct Hk as (r & Hr & Hc).
  assert (Hin : In r (filter (cell_is c k) df)).
  { apply filter_In. split; [exact Hr|].
    unfold cell_is. rewrite Hc. apply String.eqb_refl. }
  intros E. rewrite E in Hin. destruct Hin.
Qed.

Lemma calculate_support_rate_nonempty rows :
  rows <> [] ->
  calculate_support_rate rows = Series_mean (map policy_support rows).
Proof. destruct rows; [congruence | reflexivity]. Qed.

(** The entries in closed form. *)
Lemma grouped_entries c df d :
  In d (to_dict_records (column_name c)
          (round_support_rate (agg_count_mean (groupby c df)))) ->
  exists k,
    In k (keys (groupby c df))
    /\ d = entry (column_name c)
             (k, Z.of_nat (length (filter (cell_is c k) df)),
              round (calculate_support_rate (filter (cell_is c k) df)) 3).
Proof.
  unfold to_dict_records, round_support_rate, agg_count_mean.
  rewrite (groupby_closed_form c df) at 1.
  rewrite !map_map. intros Hd. apply in_map_iff in Hd.
  destruct Hd as (k & <- & Hk). exists k. split; [exact Hk|].
  cbn [fst snd].
  rewrite (calculate_support_rate_nonempty _ (cell_is_rows_nonempty c df k Hk)).
  now rewrite length_map.
Qed.

Lemma grouped_entries_closed_form c df :
  to_dict_records (column_name c)
    (round_support_rate (agg_count_mean (groupby c df)))
  = map (fun k =>
           entry (column_name c)
             (k, Z.of_nat (length (filter (cell_is c k) df)),
              round (calculate_support_rate (filter (cell_is c k) df)) 3))
        (keys (groupby c df)).
Proof.
  unfold to_dict_records, round_support_rate, agg_count_mean.
  rewrite (groupby_closed_form c df) at 1.
  rewrite !map_map. apply map_ext_in. intros k Hk. cbn [fst snd].
  rewrite (calculate_support_rate_nonempty _ (cell_is_rows_nonempty c df k Hk)).
  now rewrite length_map.
Qed.

Lemma filter_length_implies {A : Type} (p q : A -> bool) (l : list A) :
  (forall x, p x = true -> q x = true) ->
  (length (filter p l) <= length (filter q l))%nat.
Proof.
  intros H. induction l as [| x l IH]; [apply Nat.le_refl|].
  cbn [filter]. destruct (p x) eqn:Ep.
  - rewrite (H x Ep). cbn [length]. lia.
  - destruct (q x); cbn [length]; lia.
Qed.

Lemma groupby_fold_sizes_present c df gs :
  sizes (fold_left (group_row c) df gs)
  = sizes gs + Z.of_nat (length (filter (present c) df)).
Proof.
  revert gs. induction df as [| r df IH]; intros gs; [simpl; lia|].
  cbn [fold_left filter]. rewrite IH. unfold group_row, present at 2.
  destruct (cell c r).
  - rewrite insert_group_sizes. cbn [length]. lia.
  - reflexivity.
Qed.

Lemma support_by_nonempty df fs :
  apply_filters df fs <> [] ->
  support_by df fs
  = Return [("count", VInt (Z.of_nat (length (apply_filters df fs))));
            ("support_rate",
             VFloat (round (calculate_support_rate (apply_filters df fs)) 3))].
Proof.
  unfold support_by. cbv zeta.
  destruct (apply_filters df fs); [congruence | reflexivity].
Qed.


(** X9. The counts of the grouped response add up to the number of rows
    whose cell in the grouping column is present: a row with a missing cell
    is counted nowhere, and no row is counted twice. *)
Theorem grouped_total_counts_present (df : DataFrame) (c : Column) :
  exists entries,
    support_grouped df (column_name c) = Return entries
    /\ total_count entries = Z.of_nat (length (filter (present c) df))
    /\ total_count entries <= Z.of_nat (length df).
Proof.
  eexists. split; [apply support_grouped_column|].
  rewrite grouped_total_count. unfold groupby.
  rewrite groupby_fold_sizes_present. cbn [sizes fold_right].
  split; [lia|]. rewrite Z.add_0_l. apply inj_le, filter_length_le.
Qed.

(** X10. A value that occurs in a column and is not empty can be asked of
    the filtered endpoint: the request succeeds, and its count is at least
    the count of that value's entry in the grouped response, since the
    filter also takes the rows that differ from the value in letter case. *)
Theorem grouped_value_can_be_filtered (df : DataFrame) (c : Column)
  (r : Record) (k : string)
  (Hr : In r df) (Hc : cell c r = Some k) (Hk : k <> "") :
  exists entries d d' a',
    support_grouped df (column_name c) = Return entries
    /\ In d entries
    /\ group_value (column_name c) d = Some k
    /\ support_by df (single c (Some k)) = Return d'
    /\ as_AggregateResult d' = Some a'
    /\ 0 < entry_count d <= count a'.
Proof.
  assert (Hkeys : In k (keys (groupby c df))) by (apply groupby_keys; eauto).
  assert (Hsub : apply_filters df (single c (Some k))
                 = filter (fun x => casefold_eq k (cell c x)) df).
  { rewrite apply_filters_matches. apply filter_ext. intros x.
    rewrite matches_single, field_ok_single.
    apply String.eqb_neq in Hk. now rewrite Hk. }
  assert (Hle : (length (filter (cell_is c k) df)
                 <= length (apply_filters df (single c (Some k))))%nat).
  { rewrite Hsub. apply filter_length_implies. intros x.
    unfold cell_is, casefold_eq. destruct (cell c x) as [a|]; [|discriminate].
    intros E. apply String.eqb_eq in E. subst a. apply String.eqb_refl. }
  pose proof (cell_is_rows_nonempty c df k Hkeys) as Hne.
  exists (to_dict_records (column_name c)
            (round_support_rate (agg_count_mean (groupby c df)))).
  exists (entry (column_name c)
            (k, Z.of_nat (length (filter (cell_is c k) df)),
             round (calculate_support_rate (filter (cell_is c k) df)) 3)).
  exists [("count",
            VInt (Z.of_nat (length (apply_filters df (single c (Some k))))));
           ("support_rate",
            VFloat (round (calculate_support_rate
                             (apply_filters df (single c (Some k)))) 3))].
  eexists.
  split; [apply support_grouped_column|]. split.
  { rewrite grouped_entries_closed_form. apply in_map_iff.
    exists k. split; [reflexivity | exact Hkeys]. }
  split; [apply (entry_fields c)|].
  assert (Hpos : (0 < length (filter (cell_is c k) df))%nat).
  { destruct (filter (cell_is c k) df); [congruence | cbn [length]; lia]. }
  split.
  { apply support_by_nonempty. intros E. rewrite E in Hle.
    cbn [length] in Hle. lia. }
  split; [apply as_AggregateResult_body|].
  destruct (entry_fields c
              (k, Z.of_nat (length (filter (cell_is c k) df)),
               round (calculate_support_rate (filter (cell_is c k) df)) 3))
    as (_ & -> & _).
  cbn [fst snd count]. lia.
Qed.

Lemma grouped_value_can_be_filtered_witness :
  exists entries d d' a',
    support_grouped D4 "gender" = Return entries
    /\ In d entries
    /\ group_value "gender" d = Some "M"
    /\ support_by D4 (single Gender (Some "M")) = Return d'
    /\ as_AggregateResult d' = Some a'
    /\ 0 < entry_count d <= count a'.
Proof.
  apply (grouped_value_can_be_filtered D4 Gender (respondent "M" 1) "M").
  - simpl. auto.
  - reflexivity.
  - discriminate.
Defined.

(** ** Row order and rounding *)

Lemma Zsum_Permutation l l' : Permutation l l' -> Zsum l = Zsum l'.
Proof.
  induction 1 as [| x l l' _ IH | x y l | l l' l'' _ IH1 _ IH2].
  - reflexivity.
  - rewrite !Zsum_cons. lia.
  - rewrite !Zsum_cons. lia.
  - congruence.
Qed.

Lemma filter_Permutation {A : Type} (p : A -> bool) l l' :
  Permutation l l' -> Permutation (filter p l) (filter p l').
Proof.
  induction 1 as [| x l l' _ IH | x y l | l l' l'' _ IH1 _ IH2].
  - constructor.
  - cbn [filter]. destruct (p x); [now constructor | exact IH].
  - cbn [filter]. destruct (p x), (p y);
      try apply Permutation_refl. constructor.
  - now transitivity (filter p l').
Qed.

Lemma calculate_support_rate_Permutation s s' :
  Permutation s s' -> calculate_support_rate s = calculate_support_rate s'.
Proof.
  intros HP. destruct s as [| r s].
  - now rewrite (Permutation_nil HP).
  - destruct s' as [| r' s'].
    + apply Permutation_sym, Permutation_nil in HP. discriminate.
    + rewrite !calculate_support_rate_cons.
      rewrite (Zsum_Permutation _ _ (Permutation_map policy_support HP)).
      now rewrite (Permutation_length HP).
Qed.

Lemma empty_Permutation {A : Type} (s s' : list A) :
  Permutation s s' -> empty s = empty s'.
Proof.
  intros HP. destruct s as [| r s].
  - now rewrite (Permutation_nil HP).
  - destruct s' as [| r' s']; [|reflexivity].
    apply Permutation_sym, Permutation_nil in HP. discriminate.
Qed.

(** X11. The three responses depend on the rows of the table and not on
    their order: a table with the same rows in another order gives the same
    overall body, the same filtered outcome and the same grouped outcome. *)
Theorem responses_ignore_row_order (df df' : DataFrame)
  (HP : Permutation df df') :
  overall_support df = overall_support df'
  /\ (forall fs, support_by df fs = support_by df' fs)
  /\ (forall group_by, support_grouped df group_by
                       = support_grouped df' group_by).
Proof.
  split; [| split].
  - unfold overall_support. cbv zeta.
    now rewrite (calculate_support_rate_Permutation _ _ HP),
                (Permutation_length HP).
  - intros fs. unfold support_by. cbv zeta.
    assert (HPs : Permutation (apply_filters df fs) (apply_filters df' fs)).
    { rewrite !apply_filters_matches. now apply filter_Permutation. }
    now rewrite (empty_Permutation _ _ HPs),
                (calculate_support_rate_Permutation _ _ HPs),
                (Permutation_length HPs).
  - intros g. destruct (mem g valid_columns) eqn:E.
    + apply mem_In, valid_columns_names in E. destruct E as (c & ->).
      rewrite !support_grouped_column, !grouped_entries_closed_form.
      rewrite (groupby_keys_Permutation c df df' HP).
      f_equal. apply map_ext. intros k.
      pose proof (filter_Permutation (cell_is c k) _ _ HP) as HPk.
      now rewrite (calculate_support_rate_Permutation _ _ HPk),
                  (Permutation_length HPk).
    + unfold support_grouped. now rewrite E.
Qed.

Lemma responses_ignore_row_order_witness :
  overall_support D4 = overall_support (rev D4)
  /\ (forall fs, support_by D4 fs = support_by (rev D4) fs)
  /\ (forall group_by, support_grouped D4 group_by
                       = support_grouped (rev D4) group_by).
Proof.
  apply (responses_ignore_row_order D4 (rev D4)).
  apply Permutation_rev.
Defined.

Lemma round_half_even_near q :
  (inject_Z (round_half_even q) - (1 # 2) <= q
   /\ q <= inject_Z (round_half_even q) + (1 # 2))%Q.
Proof.
  pose proof (Qfloor_le q) as Hlo. pose proof (Qlt_floor q) as Hhi.
  rewrite inject_Z_plus in Hhi. change (inject_Z 1) with 1%Q in Hhi.
  assert (Hcases :
            round_half_even q = Qfloor q
            /\ (q - inject_Z (Qfloor q) <= 1 # 2)%Q
            \/ round_half_even q = Qfloor q + 1
               /\ (1 # 2 <= q - inject_Z (Qfloor q))%Q).
  { unfold round_half_even.
    destruct (q - inject_Z (Qfloor q) ?= 1 # 2)%Q eqn:E.
    - apply Qeq_alt in E.
      destruct (Z.even (Qfloor q)); [left | right];
        (split; [reflexivity | rewrite E; apply Qle_refl]).
    - apply Qlt_alt in E. left. split; [reflexivity | now apply Qlt_le_weak].
    - apply Qgt_alt in E. right. split; [reflexivity | now apply Qlt_le_weak]. }
  destruct Hcases as [[-> H] | [-> H]].
  - split; lra.
  - rewrite inject_Z_plus. change (inject_Z 1) with 1%Q. split; lra.
Qed.

(** X12. The support rate of the overall response is a whole number of
    thousandths and lies within half a thousandth of the mean of the
    indicator over the table. *)
Theorem overall_support_rate_accuracy (df : DataFrame) :
  exists (r : Q) (k : Z),
    as_AggregateResult (overall_support df)
    = Some (mkAggregateResult (Z.of_nat (length df)) (Finite r))
    /\ (r == inject_Z k / 1000)%Q
    /\ (arithmetic_mean df - (1 # 2000) <= r)%Q
    /\ (r <= arithmetic_mean df + (1 # 2000))%Q.
Proof.
  destruct (calculate_support_rate_mean df) as (q & Eq & Hq).
  unfold overall_support. cbv zeta. rewrite Eq, as_AggregateResult_body.
  unfold round. change (10 ^ 3) with 1000. cbv zeta.
  set (k := round_half_even (q * inject_Z 1000)).
  exists (Qred (inject_Z k / inject_Z 1000)), k.
  split; [reflexivity|].
  pose proof (round_half_even_near (q * inject_Z 1000)) as [H1 H2].
  fold k in H1, H2.
  change (inject_Z 1000) with 1000%Q in *.
  rewrite Qred_correct, <- Hq.
  split; [reflexivity|].
  assert (E : (inject_Z k / 1000 == inject_Z k * (1 # 1000))%Q)
    by reflexivity.
  rewrite E. split; lra.
Qed.
